(** * Pluto99HECC: heliocentric ecliptic rectangular coordinates of Pluto

    A shallow embedding of [src/index.js] (class [Pluto99HECC]) and the
    properties of its series evaluator, its axis accessors and its
    epoch / cache handling.

    JavaScript Numbers are IEEE 754 binary64 values: they are modelled by
    Rocq's primitive floats, with the same rounding.  [Math.sin] is left
    implementation-approximated by ECMAScript, so it is a parameter of the
    development.  The coefficient tables [./data/x], [./data/y] and
    [./data/z] are parameters as well. *)

From Stdlib Require Import ZArith Floats Lia.
From stdpp Require Import base option list strings gmap.

(* Decimal literals are rounded to the nearest binary64 value, as the
   JavaScript parser rounds them. *)
Set Warnings "-inexact-float".

(** ** JavaScript values *)

(** An instance of [JDateRepository] (package [@behaver/jdate]): the two
    getters the component reads, [JDE] (Julian Ephemeris Day) and [JDEC]
    (Julian centuries since J2000). *)
Record JDateRepository := mkJDate {
  JDE : float;
  JDEC : float
}.

(** The values a caller can pass where a time reference or a series table is
    expected, other than an Array.  [VJDate] is an object for which
    [instanceof JDateRepository] holds; [VObject] is a plain object given by
    its own properties. *)
#[warnings="-register-all"]
Inductive value :=
| VUndefined
| VNull
| VBoolean (b : bool)
| VNumber (n : float)
| VString (s : string)
| VObject (props : list (string * value))
| VJDate (r : JDateRepository).

(** [jdr instanceof JDateRepository] *)
Definition instanceof_JDateRepository (v : value) : bool :=
  match v with
  | VJDate _ => true
  | _ => false
  end.

(** Own property lookup of a plain object. *)
Fixpoint get_prop (k : string) (props : list (string * value)) : option value :=
  match props with
  | [] => None
  | (k', v) :: rest => if String.eqb k k' then Some v else get_prop k rest
  end.

(** [typeof v[k] === 'number'] *)
Definition exposes_number (k : string) (v : value) : bool :=
  match v with
  | VJDate _ => String.eqb k "JDE" || String.eqb k "JDEC"
  | VObject props =>
      match get_prop k props with
      | Some (VNumber _) => true
      | _ => false
      end
  | _ => false
  end.

(** The capability contract in the words of the specification: the time
    reference exposes a numeric Julian Ephemeris Day value and a numeric
    centuries-since-J2000 value. *)
Definition capability_contract (v : value) : bool :=
  exposes_number "JDE" v && exposes_number "JDEC" v.

(** One term of a degree table: [[amplitude, frequency, phase]]. *)
Record Term := mkTerm {
  amplitude : float;
  frequency : float;
  phase : float
}.

(** The argument of the series evaluator: an Array of degree tables, each an
    Array of terms, or a value that is not an Array. *)
Inductive serie_arg :=
| SerieArray (tables : list (list Term))
| SerieOther (v : value).

(** [ToNumber] on a result that is a Number or [undefined] ([None]). *)
Definition to_number (v : option float) : float :=
  match v with
  | Some n => n
  | None => nan
  end.

(** SameValueZero of ECMAScript on Numbers: [x === y], or both NaN. *)
Definition same_value_zero (a b : float) : bool :=
  (a =? b)%float || (is_nan a && is_nan b).

(** ** Completions *)

(** The outcome of a call: a normal return or a thrown [Error(msg)]. *)
Inductive completion (A : Type) :=
| Normal (a : A)
| Throw (msg : string).
Arguments Normal {A} a.
Arguments Throw {A} msg.

(** ** The cache collaborator *)

(** The operations of [CacheSpaceOnJDate] (package [@behaver/jdate]) the
    component calls, on a valid time reference: the constructor, [on], [has],
    [get] ([None] is [undefined]) and [set]. *)
Class CacheSpaceOnJDate (C : Type) := {
  cache_new : JDateRepository -> C;
  cache_on : JDateRepository -> C -> C;
  cache_has : string -> C -> bool;
  cache_get : string -> C -> option float;
  cache_set : string -> float -> C -> C
}.

(** The contract of the cache: a fresh cache and a cache moved to another
    time reference hold nothing; [set] stores under one key only. *)
Class CacheSpaceLaws (C : Type) `{CacheSpaceOnJDate C} : Prop := {
  cache_has_new : forall r k, cache_has k (cache_new r) = false;
  cache_has_on : forall r c k, cache_has k (cache_on r c) = false;
  cache_has_set_eq : forall k v c, cache_has k (cache_set k v c) = true;
  cache_has_set_ne : forall k k' v c,
    k <> k' -> cache_has k' (cache_set k v c) = cache_has k' c;
  cache_get_set_eq : forall k v c, cache_get k (cache_set k v c) = Some v;
  cache_get_set_ne : forall k k' v c,
    k <> k' -> cache_get k' (cache_set k v c) = cache_get k' c
}.

(** Modelled from the spec: the constructor of [CacheSpaceOnJDate], which is
    not part of [src/].  The constructor of [Pluto99HECC] has no check of its
    own, and construction is specified to fail with an invalid-argument error
    on a malformed time reference, so the check is the collaborator's.  The
    text of the message is not specified and nothing relies on it. *)
Definition new_CacheSpaceOnJDate {C} `{CacheSpaceOnJDate C} (jdate : value)
  : completion C :=
  match jdate with
  | VJDate r => Normal (cache_new r)
  | _ => Throw "The param jdate should be a instance of JDateRepository."
  end.

(** Modelled from the spec: [RectangularCoordinate3D] (package
    [@behaver/coordinate]), the container of the three values it is built
    from. *)
Record RectangularCoordinate3D := mkRC {
  rc_x : option float;
  rc_y : option float;
  rc_z : option float
}.

(** A cache over a finite map, the reference implementation of the contract. *)
Record MapCache := mkMapCache {
  mc_jdate : JDateRepository;
  mc_store : gmap string float
}.

#[export] Instance MapCache_ops : CacheSpaceOnJDate MapCache := {
  cache_new r := mkMapCache r ∅;
  cache_on r _ := mkMapCache r ∅;
  cache_has k c := bool_decide (is_Some (mc_store c !! k));
  cache_get k c := mc_store c !! k;
  cache_set k v c := mkMapCache (mc_jdate c) (<[k := v]> (mc_store c))
}.

(** ** The component *)

Section Pluto99HECC.

Context {C : Type} `{CacheSpaceOnJDate C}.

(** [Math.sin] *)
Variable Math_sin : float -> float.

(** [require('./data/x')], [require('./data/y')], [require('./data/z')] *)
Variables DataX DataY DataZ : list (list Term).

(** The state of an instance: [this.private.jdate] and [this.cache].
    [calc_calls] is instrumentation, not a field of the object: it counts
    the entries into [this.private.calc]. *)
Record Pluto99HECC := mkPluto {
  private_jdate : JDateRepository;
  cache : C;
  calc_calls : nat
}.

Definition M (A : Type) : Type := Pluto99HECC -> completion A * Pluto99HECC.

Definition ret {A} (a : A) : M A := fun this => (Normal a, this).

Definition throw {A} (msg : string) : M A := fun this => (Throw msg, this).

Definition bind {A B} (m : M A) (k : A -> M B) : M B :=
  fun this =>
    match m this with
    | (Normal a, this') => k a this'
    | (Throw msg, this') => (Throw msg, this')
    end.

Notation "'let!' x ':=' m 'in' k" := (bind m (fun x => k))
  (at level 10, x name, m at level 100, k at level 200).
Notation "'do!' m 'in' k" := (bind m (fun _ => k))
  (at level 10, m at level 100, k at level 200).

Definition this_jdate : M JDateRepository :=
  fun this => (Normal (private_jdate this), this).

Definition this_cache_has (k : string) : M bool :=
  fun this => (Normal (cache_has k (cache this)), this).

Definition this_cache_get (k : string) : M (option float) :=
  fun this => (Normal (cache_get k (cache this)), this).

Definition this_cache_set (k : string) (v : float) : M unit :=
  fun this =>
    (Normal tt,
     mkPluto (private_jdate this) (cache_set k v (cache this)) (calc_calls this)).

Definition this_cache_on (r : JDateRepository) : M unit :=
  fun this =>
    (Normal tt,
     mkPluto (private_jdate this) (cache_on r (cache this)) (calc_calls this)).

Definition this_set_jdate (r : JDateRepository) : M unit :=
  fun this => (Normal tt, mkPluto r (cache this) (calc_calls this)).

Definition count_calc : M unit :=
  fun this =>
    (Normal tt, mkPluto (private_jdate this) (cache this) (S (calc_calls this))).

(** [constructor(jdate)] *)
Definition constructor (jdate : value) : completion Pluto99HECC :=
  match new_CacheSpaceOnJDate jdate, jdate with
  | Throw msg, _ => Throw msg
  | Normal c, VJDate r => Normal (mkPluto r c 0)
  | Normal _, _ =>
      (* not reached: the cache is only built on a JDateRepository *)
      Throw "The param jdate should be a instance of JDateRepository."
  end.

(** [this.private.X] *)
Definition private_X : M (option float) :=
  let! cached := this_cache_has "X" in
  do! (if negb cached then
         let! jdate := this_jdate in
         this_cache_set "X" (-1 + 2 * (JDE jdate - 626150.5) / 2185000)%float
       else ret tt) in
  this_cache_get "X".

(** The inner loop of [calc]:
    [table_r += item[0] * Math.sin(item[1] * t + item[2])] *)
Definition table_loop (t : float) (table : list Term) : float :=
  fold_left
    (fun table_r item =>
       (table_r + amplitude item * Math_sin (frequency item * t + phase item))%float)
    table 0%float.

(** The outer loop of [calc], from index [i]:
    [serie_r += table_r * XMap[i]]; an index past the end of [XMap] reads
    [undefined]. *)
Fixpoint serie_loop (XMap : list (option float)) (t : float)
    (serie : list (list Term)) (i : nat) (serie_r : float) : float :=
  match serie with
  | [] => serie_r
  | table :: rest =>
      serie_loop XMap t rest (S i)
        (serie_r + table_loop t table * to_number (mjoin (XMap !! i)))%float
  end.

(** [this.private.calc] *)
Definition private_calc (serie : serie_arg) : M float :=
  do! count_calc in
  match serie with
  | SerieOther _ => throw "The param serie should be an Array."
  | SerieArray tables =>
      let! jdate := this_jdate in
      let t := JDEC jdate in
      let! X := private_X in
      let XMap := [Some 1%float; X; Some (to_number X * to_number X)%float] in
      ret (serie_loop XMap t tables 0 0%float)
  end.

(** [get x()] *)
Definition get_x : M (option float) :=
  let! cached := this_cache_has "x" in
  do! (if negb cached then
         let! r := private_calc (SerieArray DataX) in
         let! X := private_X in
         this_cache_set "x" (r + 9.922274 + 0.154154 * to_number X)%float
       else ret tt) in
  this_cache_get "x".

(** [get y()] *)
Definition get_y : M (option float) :=
  let! cached := this_cache_has "y" in
  do! (if negb cached then
         let! r := private_calc (SerieArray DataY) in
         let! X := private_X in
         this_cache_set "y" (r + 10.016090 + 0.064073 * to_number X)%float
       else ret tt) in
  this_cache_get "y".

(** [get z()] *)
Definition get_z : M (option float) :=
  let! cached := this_cache_has "z" in
  do! (if negb cached then
         let! r := private_calc (SerieArray DataZ) in
         let! X := private_X in
         this_cache_set "z" (r - 3.947474 - 0.042746 * to_number X)%float
       else ret tt) in
  this_cache_get "z".

(** [get rc()] *)
Definition get_rc : M RectangularCoordinate3D :=
  let! x := get_x in
  let! y := get_y in
  let! z := get_z in
  ret (mkRC x y z).

(** [set obTime(jdr)] *)
Definition set_obTime (jdr : value) : M unit :=
  match jdr with
  | VJDate r =>
      do! this_cache_on r in
      this_set_jdate r
  | _ => throw "The param jdr should be a instance of JDateRepository."
  end.

(** [get obTime()] *)
Definition get_obTime : M JDateRepository := this_jdate.

(** *** The specification's view *)

(** [normalize(JDE)] of the specification. *)
Definition normalize (jde : float) : float :=
  (-1 + 2 * (jde - 626150.5) / 2185000)%float.

(** The partial sum [S_i] of the specification: the terms
    [amplitude * sin(frequency * t + phase)] of a degree table, added up in
    the order of the table. *)
Definition term_value (t : float) (item : Term) : float :=
  (amplitude item * Math_sin (frequency item * t + phase item))%float.

Definition partial_sum (t : float) (table : list Term) : float :=
  fold_left PrimFloat.add (map (term_value t) table) 0%float.

(** What the evaluator computes on a table under the epoch [r]. *)
Definition series (r : JDateRepository) (tables : list (list Term)) : float :=
  let X := normalize (JDE r) in
  serie_loop [Some 1%float; Some X; Some (X * X)%float] (JDEC r) tables 0 0%float.

(** The memoized scalars: the normalized parameter and the three axes. *)
Inductive accessor := AccX | Accx | Accy | Accz.

#[export] Instance accessor_eq_dec : EqDecision accessor.
Proof. solve_decision. Defined.

Definition key (a : accessor) : string :=
  match a with
  | AccX => "X"
  | Accx => "x"
  | Accy => "y"
  | Accz => "z"
  end.

Definition read (a : accessor) : M (option float) :=
  match a with
  | AccX => private_X
  | Accx => get_x
  | Accy => get_y
  | Accz => get_z
  end.

(** The table an axis is evaluated on. *)
Definition table_of (a : accessor) : list (list Term) :=
  match a with
  | AccX => []
  | Accx => DataX
  | Accy => DataY
  | Accz => DataZ
  end.

(** [axisValue] of the specification: the series result plus the linear
    correction of the axis. *)
Definition axis_value (a : accessor) (series_result X : float) : float :=
  match a with
  | AccX => X
  | Accx => (series_result + 9.922274 + 0.154154 * X)%float
  | Accy => (series_result + 10.016090 + 0.064073 * X)%float
  | Accz => (series_result - 3.947474 - 0.042746 * X)%float
  end.

(** The value of a scalar under the epoch [r]. *)
Definition expected (r : JDateRepository) (a : accessor) : float :=
  axis_value a (series r (table_of a)) (normalize (JDE r)).

(** Every cached scalar is the one of the current epoch. *)
Definition cache_consistent (this : Pluto99HECC) : Prop :=
  forall a, cache_has (key a) (cache this) = true ->
            cache_get (key a) (cache this) = Some (expected (private_jdate this) a).

(** The state after a list of reads, and their results in order. *)
Fixpoint reads (l : list accessor) (this : Pluto99HECC)
  : list (completion (option float)) * Pluto99HECC :=
  match l with
  | [] => ([], this)
  | a :: l' =>
      let (v, this') := read a this in
      let (vs, this'') := reads l' this' in
      (v :: vs, this'')
  end.

(** The number of axes with no cached value. *)
Definition stale (a : accessor) (this : Pluto99HECC) : nat :=
  if cache_has (key a) (cache this) then 0 else 1.

Definition uncached (this : Pluto99HECC) : nat :=
  stale Accx this + stale Accy this + stale Accz this.

(** The calls a client can make on an instance. *)
Inductive call :=
| CallX
| CallCalc (serie : serie_arg)
| CallGet (a : accessor)
| CallRc
| CallSetObTime (jdr : value)
| CallGetObTime.

(** The instance after a call, returned or thrown. *)
Definition after (c : call) (this : Pluto99HECC) : Pluto99HECC :=
  match c with
  | CallX => snd (private_X this)
  | CallCalc serie => snd (private_calc serie this)
  | CallGet a => snd (read a this)
  | CallRc => snd (get_rc this)
  | CallSetObTime jdr => snd (set_obTime jdr this)
  | CallGetObTime => snd (get_obTime this)
  end.

(** The instances a client can hold: a constructed one, after any calls. *)
Inductive reachable : Pluto99HECC -> Prop :=
| reachable_new jdate this :
    constructor jdate = Normal this -> reachable this
| reachable_call c this :
    reachable this -> reachable (after c this).

(** The instance after a sequence of calls, in order. *)
Fixpoint run_calls (cs : list call) (this : Pluto99HECC) : Pluto99HECC :=
  match cs with
  | [] => this
  | c :: cs' => run_calls cs' (after c this)
  end.

(** The time reference a sequence of calls leaves, from [r]: the argument of
    the last call of the setter with an instance of [JDateRepository]. *)
Fixpoint epoch_after (cs : list call) (r : JDateRepository) : JDateRepository :=
  match cs with
  | [] => r
  | CallSetObTime (VJDate r') :: cs' => epoch_after cs' r'
  | _ :: cs' => epoch_after cs' r
  end.

(** The message of the [Error] a call throws, if it throws. *)
Definition thrown_by {A} (outcome : completion A * Pluto99HECC) : option string :=
  match fst outcome with
  | Throw msg => Some msg
  | Normal _ => None
  end.

Definition thrown (c : call) (this : Pluto99HECC) : option string :=
  match c with
  | CallX => thrown_by (private_X this)
  | CallCalc serie => thrown_by (private_calc serie this)
  | CallGet a => thrown_by (read a this)
  | CallRc => thrown_by (get_rc this)
  | CallSetObTime jdr => thrown_by (set_obTime jdr this)
  | CallGetObTime => thrown_by (get_obTime this)
  end.

End Pluto99HECC.

Arguments Pluto99HECC C : clear implicits.
Arguments M C A : clear implicits.

(** ** A concrete instance *)

(** The epoch of the usage example, JDE 2446896, and J2000 itself. *)
Definition epoch_2446896 : JDateRepository :=
  mkJDate 2446896 ((2446896 - 2451545) / 36525).

Definition epoch_J2000 : JDateRepository := mkJDate 2451545 0.

(** A time reference built on NaN. *)
Definition epoch_nan : JDateRepository := mkJDate nan nan.

(** The two ends of the validity window, JDE 626150.5 and JDE 2811150.5. *)
Definition epoch_first : JDateRepository :=
  mkJDate 626150.5 ((626150.5 - 2451545) / 36525).

Definition epoch_last : JDateRepository :=
  mkJDate 2811150.5 ((2811150.5 - 2451545) / 36525).

(** A plain object that exposes a numeric [JDE] and a numeric [JDEC] and is
    not an instance of [JDateRepository]. *)
Definition plain_time_reference : value :=
  VObject [("JDE", VNumber 2446896); ("JDEC", VNumber (-0.127))].

(** A stand-in for [Math.sin] in the examples. *)
Definition sample_sin (x : float) : float := (x - x * x * x / 6)%float.

Definition sample_T0 : list Term := [mkTerm 1 2 3; mkTerm 0.5 1 0].
Definition sample_T1 : list Term := [mkTerm 0.25 1 1].
Definition sample_T2 : list Term := [].
Definition sample_data : list (list Term) := [sample_T0; sample_T1; sample_T2].

(** The instance [new Pluto99HECC(new JDateRepository(2446896))] over the
    map cache. *)
Definition sample_instance : Pluto99HECC MapCache :=
  mkPluto epoch_2446896 (cache_new epoch_2446896) 0.

(** ** Binary64 arithmetic *)

Section Binary64.

Local Open Scope float_scope.

Lemma add_nan_l (x : float) : nan + x = nan.
Proof.
  apply Prim2SF_inj. rewrite add_spec.
  change (Prim2SF nan) with S754_nan. reflexivity.
Qed.

Lemma add_nan_r (x : float) : x + nan = nan.
Proof.
  apply Prim2SF_inj. rewrite add_spec.
  change (Prim2SF nan) with S754_nan.
  destruct (Prim2SF x); reflexivity.
Qed.

Lemma mul_nan_r (x : float) : x * nan = nan.
Proof.
  apply Prim2SF_inj. rewrite mul_spec.
  change (Prim2SF nan) with S754_nan.
  destruct (Prim2SF x); reflexivity.
Qed.

Lemma same_value_zero_refl (x : float) : same_value_zero x x = true.
Proof.
  unfold same_value_zero, is_nan. destruct (x =? x); reflexivity.
Qed.

Lemma SFeqb_finite_refl s m e :
  SFeqb (S754_finite s m e) (S754_finite s m e) = true.
Proof.
  unfold SFeqb, SFcompare.
  rewrite Z.compare_refl, Pos.compare_cont_refl. destruct s; reflexivity.
Qed.

Lemma SFeqb_finite_eq s1 m1 e1 s2 m2 e2 :
  SFeqb (S754_finite s1 m1 e1) (S754_finite s2 m2 e2) = true ->
  S754_finite s1 m1 e1 = S754_finite s2 m2 e2.
Proof.
  unfold SFeqb, SFcompare.
  destruct s1, s2; try discriminate;
    destruct (Z.compare e1 e2) eqn:Ez; try discriminate;
    destruct (Pos.compare_cont Eq m1 m2) eqn:Em; try discriminate;
    intros _; apply Z.compare_eq in Ez; apply Pos.compare_eq in Em; congruence.
Qed.

(** Two Numbers that are the same value up to the sign of zero are equal, or
    are both zeros. *)
Lemma same_value_zero_cases (a b : float) :
  same_value_zero a b = true ->
  a = b \/ exists sa sb, Prim2SF a = S754_zero sa /\ Prim2SF b = S754_zero sb.
Proof.
  unfold same_value_zero, is_nan. rewrite !FloatAxioms.eqb_spec.
  intros Hs.
  destruct (Prim2SF a) as [sa| sa| |sa ma ea] eqn:Ea;
    destruct (Prim2SF b) as [sb| sb| |sb mb eb] eqn:Eb;
    rewrite ?SFeqb_finite_refl in Hs.
  all: try (right; exists sa, sb; split; reflexivity).
  all: try (left; apply Prim2SF_inj; rewrite Ea, Eb; reflexivity).
  all: try (exfalso; clear -Hs; try destruct sa; try destruct sb; discriminate Hs).
  - left. apply Prim2SF_inj. rewrite Ea, Eb.
    destruct sa, sb; try reflexivity; discriminate Hs.
  - left. apply Prim2SF_inj. rewrite Ea, Eb.
    apply SFeqb_finite_eq. rewrite andb_false_r, orb_false_r in Hs. exact Hs.
Qed.

Lemma same_value_zero_zeros (a b : float) sa sb :
  Prim2SF a = S754_zero sa -> Prim2SF b = S754_zero sb ->
  same_value_zero a b = true.
Proof.
  intros Ea Eb. unfold same_value_zero. rewrite FloatAxioms.eqb_spec, Ea, Eb. reflexivity.
Qed.

(** [0 + y] is [y], up to the sign of zero. *)
Lemma same_value_zero_add_0_l (y : float) : same_value_zero (0 + y) y = true.
Proof.
  destruct (Prim2SF y) as [sy| sy| |sy my ey] eqn:Ey.
  - apply same_value_zero_zeros with (sa := false) (sb := sy); [|exact Ey].
    rewrite add_spec, Ey. change (Prim2SF 0) with (S754_zero false).
    destruct sy; reflexivity.
  - replace (0 + y) with y; [apply same_value_zero_refl|].
    apply Prim2SF_inj. rewrite add_spec, Ey. reflexivity.
  - replace (0 + y) with y; [apply same_value_zero_refl|].
    apply Prim2SF_inj. rewrite add_spec, Ey. reflexivity.
  - replace (0 + y) with y; [apply same_value_zero_refl|].
    apply Prim2SF_inj. rewrite add_spec, Ey. reflexivity.
Qed.

(** Adding the same Number on the right keeps two Numbers the same value. *)
Lemma same_value_zero_add_r (a b w : float) :
  same_value_zero a b = true -> same_value_zero (a + w) (b + w) = true.
Proof.
  intros Hs. apply same_value_zero_cases in Hs as [->|(sa & sb & Ea & Eb)].
  - apply same_value_zero_refl.
  - destruct (Prim2SF w) as [sw| sw| |sw mw ew] eqn:Ew.
    + apply same_value_zero_zeros
        with (sa := if Bool.eqb sa sw then sa else false)
             (sb := if Bool.eqb sb sw then sb else false);
        rewrite add_spec, ?Ea, ?Eb, Ew; destruct sa, sb, sw; reflexivity.
    + replace (a + w) with (b + w); [apply same_value_zero_refl|].
      apply Prim2SF_inj. rewrite !add_spec, Ea, Eb, Ew. reflexivity.
    + replace (a + w) with (b + w); [apply same_value_zero_refl|].
      apply Prim2SF_inj. rewrite !add_spec, Ea, Eb, Ew. reflexivity.
    + replace (a + w) with (b + w); [apply same_value_zero_refl|].
      apply Prim2SF_inj. rewrite !add_spec, Ea, Eb, Ew. reflexivity.
Qed.

End Binary64.

(** ** The component under the contract of its cache *)

Section Properties.

Context {C : Type} `{Laws : CacheSpaceLaws C}.
Variable Math_sin : float -> float.
Variables DataX DataY DataZ : list (list Term).

Local Abbreviation calc := (private_calc Math_sin).
Local Abbreviation rd := (read Math_sin DataX DataY DataZ).
Local Abbreviation rds := (reads Math_sin DataX DataY DataZ).
Local Abbreviation consistent := (cache_consistent Math_sin DataX DataY DataZ).
Local Abbreviation value_of := (expected Math_sin DataX DataY DataZ).
Local Abbreviation rc := (get_rc Math_sin DataX DataY DataZ).
Local Abbreviation can_reach := (reachable Math_sin DataX DataY DataZ).
Local Abbreviation table := (table_of DataX DataY DataZ).

(** Symbolic execution of the monadic glue, one layer at a time. *)
Ltac glue :=
  unfold bind, ret, throw, this_cache_has, this_cache_get, this_cache_set,
    this_jdate, count_calc;
  cbn [negb fst snd private_jdate cache calc_calls].

Ltac laws :=
  rewrite ?cache_has_set_eq, ?cache_get_set_eq;
  rewrite ?cache_has_set_ne, ?cache_get_set_ne by discriminate.

Lemma key_inj a b : key a = key b -> a = b.
Proof. destruct a, b; simpl; intros Hk; reflexivity || discriminate Hk. Qed.

(** *** Consistency is a matter of the time reference and the cache *)

Lemma consistent_counted jd (c : C) n m :
  consistent (mkPluto jd c n) -> consistent (mkPluto jd c m).
Proof. intros Hc a. apply (Hc a). Qed.

Lemma consistent_set (this : Pluto99HECC C) a v n :
  consistent this ->
  v = value_of (private_jdate this) a ->
  consistent (mkPluto (private_jdate this) (cache_set (key a) v (cache this)) n).
Proof.
  intros Hc -> b. cbn [cache private_jdate].
  destruct (decide (a = b)) as [<-|Hab].
  - laws. reflexivity.
  - assert (key a <> key b) as Hk by (intros Hk; apply Hab, key_inj, Hk).
    rewrite cache_has_set_ne, cache_get_set_ne by exact Hk. apply Hc.
Qed.

Lemma consistent_empty jd (c : C) n :
  (forall k, cache_has k c = false) -> consistent (mkPluto jd c n).
Proof. intros He a. cbn [cache]. rewrite He. discriminate. Qed.

(** *** The normalized parameter *)

Lemma private_X_hit (this : Pluto99HECC C) :
  cache_has "X" (cache this) = true ->
  private_X this = (Normal (cache_get "X" (cache this)), this).
Proof. intros Hc. unfold private_X. glue. rewrite Hc. reflexivity. Qed.

Lemma private_X_miss (this : Pluto99HECC C) :
  cache_has "X" (cache this) = false ->
  private_X this =
    (Normal (Some (normalize (JDE (private_jdate this)))),
     mkPluto (private_jdate this)
       (cache_set "X" (normalize (JDE (private_jdate this))) (cache this))
       (calc_calls this)).
Proof. intros Hc. unfold private_X. glue. rewrite Hc. cbn. laws. reflexivity. Qed.

(** [private.X] returns; it touches the key ["X"] only, enters no evaluation
    and keeps every entry the cache holds. *)
Lemma private_X_keeps (this : Pluto99HECC C) :
  exists X this',
    private_X this = (Normal X, this') /\
    private_jdate this' = private_jdate this /\
    calc_calls this' = calc_calls this /\
    (forall k, k <> "X" -> cache_has k (cache this') = cache_has k (cache this)) /\
    (forall k, cache_has k (cache this) = true ->
       cache_has k (cache this') = true /\
       cache_get k (cache this') = cache_get k (cache this)).
Proof.
  destruct (cache_has "X" (cache this)) eqn:Hc.
  - rewrite (private_X_hit _ Hc). eauto 10.
  - rewrite (private_X_miss _ Hc). do 2 eexists. split; [reflexivity|].
    cbn [private_jdate cache calc_calls]. repeat split.
    + intros k Hk. apply cache_has_set_ne. congruence.
    + rewrite cache_has_set_ne by congruence. assumption.
    + apply cache_get_set_ne. congruence.
Qed.

Lemma private_X_consistent (this : Pluto99HECC C) :
  consistent this ->
  exists this',
    private_X this = (Normal (Some (normalize (JDE (private_jdate this)))), this') /\
    private_jdate this' = private_jdate this /\
    consistent this'.
Proof.
  intros Hcons. destruct (cache_has "X" (cache this)) eqn:Hc.
  - rewrite (private_X_hit _ Hc). pose proof (Hcons AccX Hc) as Hg.
    cbn in Hg. rewrite Hg. eauto.
  - rewrite (private_X_miss _ Hc). eexists. split; [reflexivity|]. split; [reflexivity|].
    apply (consistent_set this AccX); [exact Hcons|reflexivity].
Qed.

(** *** The series evaluator *)

Lemma calc_not_array v (this : Pluto99HECC C) :
  calc (SerieOther v) this =
    (Throw "The param serie should be an Array.",
     mkPluto (private_jdate this) (cache this) (S (calc_calls this))).
Proof. reflexivity. Qed.

Lemma calc_array tables (this : Pluto99HECC C) :
  exists X this',
    private_X (mkPluto (private_jdate this) (cache this) (S (calc_calls this)))
      = (Normal X, this') /\
    calc (SerieArray tables) this =
      (Normal (serie_loop Math_sin
                 [Some 1%float; X; Some (to_number X * to_number X)%float]
                 (JDEC (private_jdate this)) tables 0 0%float), this').
Proof.
  destruct (private_X_keeps
              (mkPluto (private_jdate this) (cache this) (S (calc_calls this))))
    as (X & this' & HX & _).
  exists X, this'. split; [exact HX|].
  unfold private_calc. glue. rewrite HX. reflexivity.
Qed.

Lemma calc_consistent tables (this : Pluto99HECC C) :
  consistent this ->
  exists this',
    calc (SerieArray tables) this = (Normal (series Math_sin (private_jdate this) tables), this') /\
    private_jdate this' = private_jdate this /\
    consistent this'.
Proof.
  intros Hcons.
  destruct (calc_array tables this) as (X & this' & HX & ->).
  destruct (private_X_consistent
              (mkPluto (private_jdate this) (cache this) (S (calc_calls this))))
    as (this'' & HX' & Hjd & Hcons').
  { destruct this. eapply consistent_counted, Hcons. }
  rewrite HX' in HX. injection HX as <- <-.
  exists this''. repeat split; assumption.
Qed.

(** *** The accessors *)

Lemma read_hit a (this : Pluto99HECC C) :
  cache_has (key a) (cache this) = true ->
  rd a this = (Normal (cache_get (key a) (cache this)), this).
Proof.
  intros Hc. destruct a; cbn [read key] in *;
    [ apply private_X_hit, Hc
    | unfold get_x | unfold get_y | unfold get_z ];
    glue; rewrite Hc; reflexivity.
Qed.

(** A read of an axis with no cached value: one evaluation of its table, one
    read of the normalized parameter, one [set]. *)
Lemma read_miss a (this : Pluto99HECC C) :
  a <> AccX ->
  cache_has (key a) (cache this) = false ->
  exists r X this1 this2,
    calc (SerieArray (table a)) this = (Normal r, this1) /\
    private_X this1 = (Normal X, this2) /\
    rd a this =
      (Normal (Some (axis_value a r (to_number X))),
       mkPluto (private_jdate this2)
         (cache_set (key a) (axis_value a r (to_number X)) (cache this2))
         (calc_calls this2)).
Proof.
  intros Ha Hc.
  destruct (calc_array (table a) this) as (X0 & this1 & _ & Hcalc).
  destruct (private_X_keeps this1) as (X & this2 & HX & _).
  eexists _, X, this1, this2. split; [exact Hcalc|]. split; [exact HX|].
  destruct a; [congruence| | |]; cbn [read key table_of axis_value] in *;
    [unfold get_x | unfold get_y | unfold get_z];
    glue; rewrite Hc; cbn [negb]; glue; rewrite Hcalc, HX; cbn [cache]; laws;
    reflexivity.
Qed.

Lemma read_consistent a (this : Pluto99HECC C) :
  consistent this ->
  exists this',
    rd a this = (Normal (Some (value_of (private_jdate this) a)), this') /\
    private_jdate this' = private_jdate this /\
    consistent this'.
Proof.
  intros Hcons. destruct (decide (a = AccX)) as [->|Ha].
  { apply private_X_consistent, Hcons. }
  destruct (cache_has (key a) (cache this)) eqn:Hc.
  { rewrite (read_hit _ _ Hc), (Hcons a Hc). eauto. }
  destruct (read_miss a this Ha Hc) as (r & X & this1 & this2 & Hcalc & HX & ->).
  destruct (calc_consistent (table a) this Hcons) as (this1' & Hcalc' & Hjd1 & Hcons1).
  rewrite Hcalc' in Hcalc. injection Hcalc as <- <-.
  destruct (private_X_consistent this1' Hcons1) as (this2' & HX' & Hjd2 & Hcons2).
  rewrite HX' in HX. injection HX as <- <-.
  cbn [to_number]. rewrite Hjd1.
  eexists. split; [reflexivity|]. cbn [private_jdate]. split; [congruence|].
  rewrite <- Hjd1, <- Hjd2.
  apply consistent_set; [exact Hcons2|]. rewrite Hjd2, Hjd1. reflexivity.
Qed.

Lemma rc_consistent (this : Pluto99HECC C) :
  consistent this ->
  exists this',
    rc this =
      (Normal (mkRC (Some (value_of (private_jdate this) Accx))
                    (Some (value_of (private_jdate this) Accy))
                    (Some (value_of (private_jdate this) Accz))), this') /\
    private_jdate this' = private_jdate this /\
    consistent this'.
Proof.
  intros Hcons.
  destruct (read_consistent Accx this Hcons) as (this1 & Hx & Hjd1 & Hcons1).
  destruct (read_consistent Accy this1 Hcons1) as (this2 & Hy & Hjd2 & Hcons2).
  destruct (read_consistent Accz this2 Hcons2) as (this3 & Hz & Hjd3 & Hcons3).
  cbn [read] in Hx, Hy, Hz.
  exists this3. unfold get_rc. glue. rewrite Hx, Hy, Hz.
  rewrite Hjd2, Hjd1. repeat split; [congruence|exact Hcons3].
Qed.

(** *** The epoch *)

Lemma set_obTime_jdate r (this : Pluto99HECC C) :
  set_obTime (VJDate r) this =
    (Normal tt, mkPluto r (cache_on r (cache this)) (calc_calls this)).
Proof. reflexivity. Qed.

Lemma set_obTime_other v (this : Pluto99HECC C) :
  instanceof_JDateRepository v = false ->
  set_obTime v this =
    (Throw "The param jdr should be a instance of JDateRepository.", this).
Proof. destruct v; try reflexivity; discriminate. Qed.

Lemma constructor_jdate r :
  constructor (C := C) (VJDate r) = Normal (mkPluto r (cache_new r) 0).
Proof. reflexivity. Qed.

Lemma constructor_returns jdate (this : Pluto99HECC C) :
  constructor jdate = Normal this ->
  exists r, jdate = VJDate r /\ this = mkPluto r (cache_new r) 0.
Proof.
  destruct jdate; try discriminate. rewrite constructor_jdate.
  intros [= <-]. eauto.
Qed.

(** *** The invariant *)

Lemma after_consistent c (this : Pluto99HECC C) :
  consistent this -> consistent (after Math_sin DataX DataY DataZ c this).
Proof.
  intros Hcons. destruct c as [|serie|a| |jdr|]; cbn [after].
  - destruct (private_X_consistent this Hcons) as (this' & -> & _ & Hc). exact Hc.
  - destruct serie as [tables|v].
    + destruct (calc_consistent tables this Hcons) as (this' & -> & _ & Hc). exact Hc.
    + rewrite calc_not_array. destruct this. eapply consistent_counted, Hcons.
  - destruct (read_consistent a this Hcons) as (this' & -> & _ & Hc). exact Hc.
  - destruct (rc_consistent this Hcons) as (this' & -> & _ & Hc). exact Hc.
  - destruct (instanceof_JDateRepository jdr) eqn:Hi.
    + destruct jdr; try discriminate Hi. rewrite set_obTime_jdate.
      apply consistent_empty. intros k. apply cache_has_on.
    + rewrite (set_obTime_other _ _ Hi). exact Hcons.
  - exact Hcons.
Qed.

(** Every instance a client can hold has a consistent cache. *)
Lemma reachable_consistent (this : Pluto99HECC C) :
  can_reach this -> consistent this.
Proof.
  induction 1 as [jdate this Hnew|c this _ IH].
  - apply constructor_returns in Hnew as (r & _ & ->).
    apply consistent_empty. intros k. apply cache_has_new.
  - apply after_consistent, IH.
Qed.

(** *** The series evaluator on a well-formed table *)

Lemma table_loop_partial_sum t table :
  table_loop Math_sin t table = partial_sum Math_sin t table.
Proof.
  unfold table_loop, partial_sum. generalize 0%float.
  induction table as [|item table IH]; intros acc; [reflexivity|].
  cbn [fold_left map]. apply IH.
Qed.

(** C1: on a table of three degree tables the evaluator returns
    [S_0 * 1 + S_1 * X + S_2 * X^2], where [S_i] is the sum of
    [amplitude * sin(frequency * t + phase)] over degree table [i], [t] is
    the centuries-since-J2000 value and [X] the normalized parameter of the
    current epoch.  The returned Number is the same value as the formula in
    the sense of SameValueZero: the evaluator accumulates from [0], so it
    returns [0 + S_0 * 1 + S_1 * X + S_2 * X^2], which can only differ from
    the formula in the sign of a zero. *)
Theorem calc_series_formula (this : Pluto99HECC C) (T0 T1 T2 : list Term) :
  can_reach this ->
  let t := JDEC (private_jdate this) in
  let X := normalize (JDE (private_jdate this)) in
  let S_0 := partial_sum Math_sin t T0 in
  let S_1 := partial_sum Math_sin t T1 in
  let S_2 := partial_sum Math_sin t T2 in
  exists v this',
    calc (SerieArray [T0; T1; T2]) this = (Normal v, this') /\
    v = (0 + S_0 * 1 + S_1 * X + S_2 * (X * X))%float /\
    same_value_zero v (S_0 * 1 + S_1 * X + S_2 * (X * X))%float = true.
Proof.
  intros Hr t X S_0 S_1 S_2.
  destruct (calc_consistent [T0; T1; T2] this (reachable_consistent _ Hr))
    as (this' & Hcalc & _).
  eexists _, this'. split; [exact Hcalc|].
  unfold series. cbn [serie_loop lookup list_lookup mjoin option_join to_number].
  rewrite !table_loop_partial_sum. fold t X S_0 S_1 S_2.
  split; [reflexivity|].
  do 2 apply same_value_zero_add_r. apply same_value_zero_add_0_l.
Qed.

(** *** The axis accessors *)

(** C2: under the current epoch, with normalized parameter [X], each axis
    accessor returns the result of the series evaluator on its table plus the
    linear correction of the axis: [x = series_x + 9.922274 + 0.154154 * X],
    [y = series_y + 10.016090 + 0.064073 * X] and
    [z = series_z - 3.947474 - 0.042746 * X]. *)
Theorem axis_linear_correction (this : Pluto99HECC C) :
  can_reach this ->
  let X := normalize (JDE (private_jdate this)) in
  exists series_x series_y series_z,
    fst (calc (SerieArray DataX) this) = Normal series_x /\
    fst (calc (SerieArray DataY) this) = Normal series_y /\
    fst (calc (SerieArray DataZ) this) = Normal series_z /\
    fst (private_X this) = Normal (Some X) /\
    fst (get_x Math_sin DataX this)
      = Normal (Some (series_x + 9.922274 + 0.154154 * X)%float) /\
    fst (get_y Math_sin DataY this)
      = Normal (Some (series_y + 10.016090 + 0.064073 * X)%float) /\
    fst (get_z Math_sin DataZ this)
      = Normal (Some (series_z - 3.947474 - 0.042746 * X)%float).
Proof.
  intros Hr X. apply reachable_consistent in Hr.
  exists (series Math_sin (private_jdate this) DataX),
         (series Math_sin (private_jdate this) DataY),
         (series Math_sin (private_jdate this) DataZ).
  destruct (calc_consistent DataX this Hr) as (? & -> & _).
  destruct (calc_consistent DataY this Hr) as (? & -> & _).
  destruct (calc_consistent DataZ this Hr) as (? & -> & _).
  destruct (private_X_consistent this Hr) as (? & -> & _).
  destruct (read_consistent Accx this Hr) as (? & Hx & _).
  destruct (read_consistent Accy this Hr) as (? & Hy & _).
  destruct (read_consistent Accz this Hr) as (? & Hz & _).
  cbn [read] in Hx, Hy, Hz. rewrite Hx, Hy, Hz. repeat split; reflexivity.
Qed.

(** *** The normalized parameter *)

(** C3: the normalized parameter of the current epoch is
    [-1 + 2 * (JDE - 626150.5) / 2185000]; in binary64 arithmetic it is
    exactly [-1] at [JDE = 626150.5] and exactly [1] at [JDE = 2811150.5]. *)
Theorem normalized_parameter (this : Pluto99HECC C) :
  can_reach this ->
  let jde := JDE (private_jdate this) in
  fst (private_X this)
    = Normal (Some (-1 + 2 * (jde - 626150.5) / 2185000)%float) /\
  (jde = 626150.5%float -> fst (private_X this) = Normal (Some (-1)%float)) /\
  (jde = 2811150.5%float -> fst (private_X this) = Normal (Some 1%float)).
Proof.
  intros Hr jde. apply reachable_consistent in Hr.
  destruct (private_X_consistent this Hr) as (? & -> & _).
  fold jde. cbn [fst]. repeat split.
  - intros ->. reflexivity.
  - intros ->. reflexivity.
Qed.

(** *** Construction *)

(** C4: constructing the component on a time reference that does not expose
    a numeric Julian Ephemeris Day and a numeric centuries-since-J2000 value
    throws; no instance exists, so no coordinate is computed. *)
Theorem constructor_rejects (jdate : value) :
  capability_contract jdate = false ->
  exists msg, constructor (C := C) jdate = Throw msg.
Proof.
  destruct jdate; try discriminate; intros _; eexists; reflexivity.
Qed.

(** *** What a read leaves in place *)

Lemma calc_keeps tables (this : Pluto99HECC C) :
  exists r this',
    calc (SerieArray tables) this = (Normal r, this') /\
    private_jdate this' = private_jdate this /\
    calc_calls this' = S (calc_calls this) /\
    (forall k, k <> "X" -> cache_has k (cache this') = cache_has k (cache this)) /\
    (forall k, cache_has k (cache this) = true ->
       cache_has k (cache this') = true /\
       cache_get k (cache this') = cache_get k (cache this)).
Proof.
  destruct (private_X_keeps
              (mkPluto (private_jdate this) (cache this) (S (calc_calls this))))
    as (X & this' & HX & Hjd & Hn & Hframe & Hkeep).
  eexists _, this'. unfold private_calc. glue. rewrite HX.
  split; [reflexivity|]. auto.
Qed.

(** A read returns; it keeps the time reference and every cached entry, it
    leaves its own entry cached with the value it returned, and it enters
    the evaluator exactly when it fills the entry of an axis. *)
Lemma read_keeps a (this : Pluto99HECC C) :
  exists v this',
    rd a this = (Normal v, this') /\
    private_jdate this' = private_jdate this /\
    calc_calls this' + uncached this' = calc_calls this + uncached this /\
    calc_calls this' <= S (calc_calls this) /\
    (cache_has (key a) (cache this) = true -> this' = this) /\
    (forall k, cache_has k (cache this) = true ->
       cache_has k (cache this') = true /\
       cache_get k (cache this') = cache_get k (cache this)) /\
    cache_has (key a) (cache this') = true /\
    cache_get (key a) (cache this') = v.
Proof.
  destruct (cache_has (key a) (cache this)) eqn:Hc.
  { rewrite (read_hit _ _ Hc). eexists _, this. repeat split; auto. }
  destruct (decide (a = AccX)) as [->|Ha].
  { cbn [read key] in *. rewrite (private_X_miss _ Hc).
    do 2 eexists. split; [reflexivity|].
    cbn [private_jdate cache calc_calls]. repeat split.
    - unfold uncached, stale. cbn [key cache]. laws. reflexivity.
    - lia.
    - discriminate.
    - rewrite cache_has_set_ne by congruence. assumption.
    - apply cache_get_set_ne. congruence.
    - laws. reflexivity.
    - laws. reflexivity. }
  destruct (read_miss a this Ha Hc) as (r & X & this1 & this2 & Hcalc & HX & ->).
  destruct (calc_keeps (table a) this) as (r' & this1' & Hcalc' & Hjd1 & Hn1 & Hf1 & Hk1).
  rewrite Hcalc' in Hcalc. injection Hcalc as <- <-.
  destruct (private_X_keeps this1') as (X' & this2' & HX' & Hjd2 & Hn2 & Hf2 & Hk2).
  rewrite HX' in HX. injection HX as <- <-.
  do 2 eexists. split; [reflexivity|].
  cbn [private_jdate cache calc_calls].
  assert (forall k, k <> "X" -> cache_has k (cache this2') = cache_has k (cache this))
    as Hf by (intros k Hk; rewrite Hf2, Hf1 by exact Hk; reflexivity).
  repeat split.
  - congruence.
  - rewrite Hn2, Hn1. unfold uncached, stale. cbn [cache].
    destruct a; [congruence| | |]; cbn [key] in *; laws;
      rewrite ?Hf by discriminate; rewrite ?Hc; lia.
  - lia.
  - discriminate.
  - rewrite cache_has_set_ne by congruence.
    apply Hk2, Hk1. assumption.
  - rewrite cache_get_set_ne by congruence.
    destruct (Hk1 k) as [Hh1 Hg1]; [assumption|].
    destruct (Hk2 k Hh1) as [_ Hg2]. congruence.
  - laws. reflexivity.
  - laws. reflexivity.
Qed.

Lemma reads_nil (this : Pluto99HECC C) : rds [] this = ([], this).
Proof. reflexivity. Qed.

Lemma reads_cons a l (this : Pluto99HECC C) :
  snd (rds (a :: l) this) = snd (rds l (snd (rd a this))).
Proof.
  cbn [reads]. destruct (rd a this) as [v this']. cbn [snd].
  destruct (rds l this') as [vs this'']. reflexivity.
Qed.

(** Any sequence of reads keeps the time reference, the consistency of the
    cache and every cached entry; the evaluations it enters are paid for by
    axes that were not cached. *)
Lemma reads_keep l (this : Pluto99HECC C) :
  let this' := snd (rds l this) in
  private_jdate this' = private_jdate this /\
  (consistent this -> consistent this') /\
  calc_calls this' + uncached this' = calc_calls this + uncached this /\
  (forall k, cache_has k (cache this) = true ->
     cache_has k (cache this') = true /\
     cache_get k (cache this') = cache_get k (cache this)).
Proof.
  revert this. induction l as [|a l IH]; intros this; cbn zeta.
  { rewrite reads_nil. cbn [snd]. auto. }
  rewrite reads_cons.
  destruct (read_keeps a this) as (v & this1 & Hrd & Hjd & Hpot & _ & _ & Hk & _).
  destruct (IH this1) as (Hjd' & Hcons' & Hpot' & Hk').
  rewrite Hrd. cbn [snd]. repeat split.
  - congruence.
  - intros Hcons. apply Hcons'.
    destruct (read_consistent a this Hcons) as (this1' & Hrd' & _ & Hc1).
    rewrite Hrd' in Hrd. injection Hrd as _ <-. exact Hc1.
  - lia.
  - apply Hk', Hk. assumption.
  - destruct (Hk k) as [Hh1 Hg1]; [assumption|].
    destruct (Hk' k Hh1) as [_ Hg2]. congruence.
Qed.

(** *** Changing the epoch *)

Lemma contract_of_instance (jdr : value) :
  instanceof_JDateRepository jdr = true -> capability_contract jdr = true.
Proof. destruct jdr; try discriminate. reflexivity. Qed.

(** C5, as the code has it: the setter throws for every argument that is not
    an instance of [JDateRepository], which covers every argument that does
    not satisfy the capability contract; for an instance, it adopts it as the
    current epoch and empties the cache, so that every later read of [X],
    [x], [y] or [z] returns the value of the new epoch, whatever was cached
    before. *)
Theorem obTime_setter (jdr : value) (this : Pluto99HECC C) :
  (capability_contract jdr = false -> instanceof_JDateRepository jdr = false) /\
  (instanceof_JDateRepository jdr = false ->
     set_obTime jdr this =
       (Throw "The param jdr should be a instance of JDateRepository.", this)) /\
  (forall r, jdr = VJDate r ->
     exists this',
       set_obTime jdr this = (Normal tt, this') /\
       get_obTime this' = (Normal r, this') /\
       (forall k, cache_has k (cache this') = false) /\
       forall l a,
         fst (rd a (snd (rds l this'))) = Normal (Some (value_of r a))).
Proof.
  split; [|split].
  - destruct (instanceof_JDateRepository jdr) eqn:Hi; [|reflexivity].
    rewrite (contract_of_instance _ Hi). discriminate.
  - apply set_obTime_other.
  - intros r ->. rewrite set_obTime_jdate. eexists. split; [reflexivity|].
    split; [reflexivity|]. split; [intros k; apply cache_has_on|].
    intros l a.
    set (this' := mkPluto r (cache_on r (cache this)) (calc_calls this)).
    assert (consistent this') as Hcons
      by (apply consistent_empty; intros k; apply cache_has_on).
    destruct (reads_keep l this') as (Hjd & Hc & _).
    destruct (read_consistent a _ (Hc Hcons)) as (? & -> & _).
    rewrite Hjd. reflexivity.
Qed.

(** C9: a call of the setter with an argument that fails the check throws
    with the instance as it was: the time reference, the cache and what any
    later read or call does are those before the call. *)
Theorem obTime_reject_keeps_state (jdr : value) (this : Pluto99HECC C) :
  instanceof_JDateRepository jdr = false ->
    set_obTime jdr this =
      (Throw "The param jdr should be a instance of JDateRepository.", this) /\
    get_obTime (snd (set_obTime jdr this)) = get_obTime this /\
    (forall a, rd a (snd (set_obTime jdr this)) = rd a this) /\
    rc (snd (set_obTime jdr this)) = rc this.
Proof.
  intros Hi. rewrite (set_obTime_other _ this Hi). repeat split.
Qed.

(** *** The series evaluator on malformed tables *)

(** C6: on an argument that is not an Array the evaluator throws at once:
    the normalized parameter is not read and the time reference and the
    cache are untouched. *)
Theorem calc_rejects_non_array (v : value) (this : Pluto99HECC C) :
  exists this',
    calc (SerieOther v) this =
      (Throw "The param serie should be an Array.", this') /\
    private_jdate this' = private_jdate this /\
    cache this' = cache this.
Proof. rewrite calc_not_array. eexists. repeat split. Qed.

Lemma serie_loop_nan XMap t serie i :
  serie_loop Math_sin XMap t serie i nan = nan.
Proof.
  revert i. induction serie as [|tbl serie IH]; intros i; [reflexivity|].
  cbn [serie_loop]. rewrite add_nan_l. apply IH.
Qed.

(** An index past the end of the weights reads [undefined]: the product is
    NaN and so is everything accumulated on it. *)
Lemma serie_loop_past_weights XMap t tbl serie i serie_r :
  length XMap <= i ->
  serie_loop Math_sin XMap t (tbl :: serie) i serie_r = nan.
Proof.
  intros Hi. cbn [serie_loop].
  rewrite (lookup_ge_None_2 XMap i Hi). cbn [mjoin option_join to_number].
  rewrite mul_nan_r, add_nan_r. apply serie_loop_nan.
Qed.

(** C10: the weights are [[1, X, X * X]] only; on an Array of more than
    three degree tables the evaluator does not throw and does not ignore the
    extra tables: it returns NaN. *)
Theorem calc_extra_tables (tables : list (list Term)) (this : Pluto99HECC C) :
  3 < length tables ->
  exists this', calc (SerieArray tables) this = (Normal nan, this').
Proof.
  intros Hlen.
  destruct (calc_array tables this) as (X & this' & _ & ->).
  exists this'. do 2 f_equal.
  destruct tables as [|T0 [|T1 [|T2 [|T3 rest]]]]; cbn [length] in Hlen; try lia.
  cbn [serie_loop]. apply serie_loop_past_weights. cbn [length]. lia.
Qed.

(** *** Memoization *)

(** C7: a read of an axis returns a value and leaves the instance such that
    reading the same axis again, at once or after any other reads, returns
    the same value and leaves the instance, evaluation count included, as it
    is.  The first read enters the evaluator at most once, and over any
    sequence of reads the evaluator is entered at most once for each axis
    that was not cached. *)
Theorem axis_memoized (a : accessor) (this : Pluto99HECC C) :
  a <> AccX ->
  exists v this',
    rd a this = (Normal v, this') /\
    rd a this' = (Normal v, this') /\
    calc_calls this' <= S (calc_calls this) /\
    (cache_has (key a) (cache this) = true -> calc_calls this' = calc_calls this) /\
    (forall l, let this'' := snd (rds l this') in
               rd a this'' = (Normal v, this'')) /\
    (forall l, calc_calls (snd (rds l this)) <= calc_calls this + uncached this).
Proof.
  intros Ha.
  destruct (read_keeps a this) as (v & this' & Hrd & _ & _ & Hn & Hsame & _ & Hh & Hg).
  assert (forall l, let this'' := snd (rds l this') in
                    rd a this'' = (Normal v, this'')) as Hlater.
  { intros l this''.
    destruct (reads_keep l this') as (_ & _ & _ & Hk).
    destruct (Hk (key a) Hh) as [Hh' Hg'].
    rewrite (read_hit a this'' Hh'). fold this'' in Hg'. congruence. }
  exists v, this'. repeat split.
  - exact Hrd.
  - apply (Hlater []).
  - exact Hn.
  - intros Hc. rewrite (Hsame Hc). reflexivity.
  - exact Hlater.
  - intros l. destruct (reads_keep l this) as (_ & _ & Hpot & _). lia.
Qed.

(** *** The coordinate vector *)

Notation "'let!' x ':=' m 'in' k" := (bind m (fun x => k))
  (at level 10, x name, m at level 100, k at level 200).
Notation "'do!' m 'in' k" := (bind m (fun _ => k))
  (at level 10, m at level 100, k at level 200).

(** C8: [rc] returns a container of exactly the three values the accessors
    [x], [y] and [z] return under the current epoch; a container read before
    a change of epoch still holds the values of the old epoch after it, while
    a new read holds those of the new epoch. *)
Theorem rc_snapshot (this : Pluto99HECC C) (r' : JDateRepository) :
  can_reach this ->
  let r := private_jdate this in
  let at_epoch r :=
    mkRC (Some (value_of r Accx)) (Some (value_of r Accy)) (Some (value_of r Accz)) in
  fst (rc this) = Normal (at_epoch r) /\
  fst (get_x Math_sin DataX this) = Normal (rc_x (at_epoch r)) /\
  fst (get_y Math_sin DataY this) = Normal (rc_y (at_epoch r)) /\
  fst (get_z Math_sin DataZ this) = Normal (rc_z (at_epoch r)) /\
  fst ((let! before := rc in
        do! set_obTime (VJDate r') in
        let! after := rc in
        ret (before, after)) this)
    = Normal (at_epoch r, at_epoch r').
Proof.
  intros Hr r at_epoch. apply reachable_consistent in Hr.
  destruct (rc_consistent this Hr) as (this1 & Hrc & Hjd & Hcons).
  destruct (read_consistent Accx this Hr) as (? & Hx & _).
  destruct (read_consistent Accy this Hr) as (? & Hy & _).
  destruct (read_consistent Accz this Hr) as (? & Hz & _).
  cbn [read] in Hx, Hy, Hz. rewrite Hrc, Hx, Hy, Hz.
  repeat split.
  unfold bind at 1. rewrite Hrc.
  unfold bind at 1. rewrite set_obTime_jdate.
  set (this2 := mkPluto r' (cache_on r' (cache this1)) (calc_calls this1)).
  assert (consistent this2) as Hcons2
    by (apply consistent_empty; intros k; apply cache_has_on).
  destruct (rc_consistent this2 Hcons2) as (this3 & Hrc2 & _).
  unfold bind. rewrite Hrc2. reflexivity.
Qed.

End Properties.

(** ** The map cache meets the contract *)

#[export] Instance MapCache_laws : CacheSpaceLaws MapCache.
Proof.
  split; cbn [cache_new cache_on cache_has cache_get cache_set MapCache_ops mc_store].
  - intros r k. rewrite lookup_empty. reflexivity.
  - intros r c k. rewrite lookup_empty. reflexivity.
  - intros k v c. rewrite lookup_insert_eq. reflexivity.
  - intros k k' v c Hk. rewrite lookup_insert_ne by exact Hk. reflexivity.
  - intros k v c. apply lookup_insert_eq.
  - intros k k' v c Hk. apply lookup_insert_ne, Hk.
Qed.

(** ** The theorems at work on the sample instance *)

Lemma calc_series_formula_witness :
  reachable sample_sin sample_data sample_data sample_data sample_instance /\
  exists v this',
    private_calc sample_sin (SerieArray [sample_T0; sample_T1; sample_T2])
      sample_instance = (Normal v, this') /\
    same_value_zero v
      (partial_sum sample_sin (JDEC epoch_2446896) sample_T0 * 1
       + partial_sum sample_sin (JDEC epoch_2446896) sample_T1
         * normalize (JDE epoch_2446896)
       + partial_sum sample_sin (JDEC epoch_2446896) sample_T2
         * (normalize (JDE epoch_2446896) * normalize (JDE epoch_2446896)))%float
      = true.
Proof.
  assert (reachable sample_sin sample_data sample_data sample_data sample_instance)
    as Hr by (apply (reachable_new _ _ _ _ (VJDate epoch_2446896)); reflexivity).
  split; [exact Hr|].
  destruct (calc_series_formula sample_sin sample_data sample_data sample_data
              sample_instance sample_T0 sample_T1 sample_T2 Hr)
    as (v & this' & Hcalc & _ & Hsame).
  exists v, this'. split; [exact Hcalc|exact Hsame].
Defined.

Lemma axis_linear_correction_witness :
  reachable sample_sin sample_data sample_data sample_data sample_instance /\
  exists series_x,
    fst (private_calc sample_sin (SerieArray sample_data) sample_instance)
      = Normal series_x /\
    fst (get_x sample_sin sample_data sample_instance)
      = Normal (Some (series_x + 9.922274
                      + 0.154154 * normalize (JDE epoch_2446896))%float).
Proof.
  assert (reachable sample_sin sample_data sample_data sample_data sample_instance)
    as Hr by (apply (reachable_new _ _ _ _ (VJDate epoch_2446896)); reflexivity).
  split; [exact Hr|].
  destruct (axis_linear_correction sample_sin sample_data sample_data sample_data
              sample_instance Hr)
    as (sx & sy & sz & Hsx & _ & _ & _ & Hx & _).
  exists sx. split; [exact Hsx|exact Hx].
Defined.

Lemma normalized_parameter_witness :
  (JDE epoch_first = 626150.5%float /\
   fst (private_X (mkPluto epoch_first (cache_new (C := MapCache) epoch_first) 0))
     = Normal (Some (-1)%float)) /\
  (JDE epoch_last = 2811150.5%float /\
   fst (private_X (mkPluto epoch_last (cache_new (C := MapCache) epoch_last) 0))
     = Normal (Some 1%float)).
Proof.
  split; (split; [reflexivity|]).
  - apply (normalized_parameter sample_sin sample_data sample_data sample_data
             (mkPluto epoch_first (cache_new epoch_first) 0)).
    + apply (reachable_new _ _ _ _ (VJDate epoch_first)). reflexivity.
    + reflexivity.
  - apply (normalized_parameter sample_sin sample_data sample_data sample_data
             (mkPluto epoch_last (cache_new epoch_last) 0)).
    + apply (reachable_new _ _ _ _ (VJDate epoch_last)). reflexivity.
    + reflexivity.
Defined.

Lemma constructor_rejects_witness :
  capability_contract VUndefined = false /\
  exists msg, constructor (C := MapCache) VUndefined = Throw msg.
Proof.
  split; [reflexivity|]. apply (constructor_rejects VUndefined). reflexivity.
Defined.

(** C5, as stated, fails: the setter rejects a plain object although it
    exposes a numeric [JDE] and a numeric [JDEC]. *)
Lemma obTime_rejects_plain_object :
  capability_contract plain_time_reference = true /\
  set_obTime plain_time_reference sample_instance =
    (Throw "The param jdr should be a instance of JDateRepository.",
     sample_instance).
Proof. split; reflexivity. Qed.

Lemma obTime_setter_witness :
  (capability_contract VNull = false /\
   instanceof_JDateRepository VNull = false /\
   set_obTime VNull sample_instance =
     (Throw "The param jdr should be a instance of JDateRepository.",
      sample_instance)) /\
  exists this',
    set_obTime (VJDate epoch_J2000) sample_instance = (Normal tt, this') /\
    fst (read sample_sin sample_data sample_data sample_data Accx
           (snd (reads sample_sin sample_data sample_data sample_data
                   [Accy; AccX] this')))
      = Normal (Some (expected sample_sin sample_data sample_data sample_data
                        epoch_J2000 Accx)).
Proof.
  split.
  - split; [reflexivity|]. split; [reflexivity|].
    apply (obTime_setter sample_sin sample_data sample_data sample_data
             VNull sample_instance).
    reflexivity.
  - destruct (obTime_setter sample_sin sample_data sample_data sample_data
                (VJDate epoch_J2000) sample_instance) as (_ & _ & Hset).
    destruct (Hset epoch_J2000 eq_refl) as (this' & Hs & _ & _ & Hreads).
    exists this'. split; [exact Hs|]. apply Hreads.
Defined.

Lemma obTime_reject_keeps_state_witness :
  instanceof_JDateRepository plain_time_reference = false /\
  set_obTime plain_time_reference sample_instance =
    (Throw "The param jdr should be a instance of JDateRepository.",
     sample_instance).
Proof.
  split; [reflexivity|].
  apply (obTime_reject_keeps_state sample_sin sample_data sample_data sample_data
           plain_time_reference sample_instance).
  reflexivity.
Defined.

Lemma calc_extra_tables_witness :
  3 < length (sample_data ++ [[]]) /\
  exists this',
    private_calc sample_sin (SerieArray (sample_data ++ [[]])) sample_instance
      = (Normal nan, this').
Proof.
  assert (3 < length (sample_data ++ [[]])) as Hlen by (cbn; lia).
  split; [exact Hlen|].
  apply (calc_extra_tables sample_sin (sample_data ++ [[]]) sample_instance Hlen).
Defined.

Lemma axis_memoized_witness :
  Accx <> AccX /\
  exists v this',
    get_x sample_sin sample_data sample_instance = (Normal v, this') /\
    get_x sample_sin sample_data this' = (Normal v, this') /\
    calc_calls this' <= 1.
Proof.
  assert (Accx <> AccX) as Ha by discriminate.
  split; [exact Ha|].
  destruct (axis_memoized sample_sin sample_data sample_data sample_data
              Accx sample_instance Ha)
    as (v & this' & H1 & H2 & Hn & _).
  exists v, this'. split; [exact H1|]. split; [exact H2|exact Hn].
Defined.

Lemma rc_snapshot_witness :
  reachable sample_sin sample_data sample_data sample_data sample_instance /\
  fst (get_rc sample_sin sample_data sample_data sample_data sample_instance)
    = Normal
        (mkRC (Some (expected sample_sin sample_data sample_data sample_data
                       epoch_2446896 Accx))
              (Some (expected sample_sin sample_data sample_data sample_data
                       epoch_2446896 Accy))
              (Some (expected sample_sin sample_data sample_data sample_data
                       epoch_2446896 Accz))).
Proof.
  assert (reachable sample_sin sample_data sample_data sample_data sample_instance)
    as Hr by (apply (reachable_new _ _ _ _ (VJDate epoch_2446896)); reflexivity).
  split; [exact Hr|].
  apply (rc_snapshot sample_sin sample_data sample_data sample_data
           sample_instance epoch_J2000 Hr).
Defined.

(** ** Further properties of the component *)

Section Composition.

Context {C : Type} `{Laws : CacheSpaceLaws C}.
Variable Math_sin : float -> float.
Variables DataX DataY DataZ : list (list Term).

Local Abbreviation calc := (private_calc Math_sin).
Local Abbreviation rd := (read Math_sin DataX DataY DataZ).
Local Abbreviation rds := (reads Math_sin DataX DataY DataZ).
Local Abbreviation consistent := (cache_consistent Math_sin DataX DataY DataZ).
Local Abbreviation value_of := (expected Math_sin DataX DataY DataZ).
Local Abbreviation rc := (get_rc Math_sin DataX DataY DataZ).
Local Abbreviation can_reach := (reachable Math_sin DataX DataY DataZ).
Local Abbreviation next := (after Math_sin DataX DataY DataZ).
Local Abbreviation run := (run_calls Math_sin DataX DataY DataZ).
Local Abbreviation throws := (thrown Math_sin DataX DataY DataZ).

(** *** The coordinate vector, on any state *)

Lemma rc_hit (this : Pluto99HECC C) :
  cache_has "x" (cache this) = true ->
  cache_has "y" (cache this) = true ->
  cache_has "z" (cache this) = true ->
  rc this =
    (Normal (mkRC (cache_get "x" (cache this)) (cache_get "y" (cache this))
                  (cache_get "z" (cache this))), this).
Proof.
  intros Hx Hy Hz. unfold get_rc, bind, ret.
  rewrite (read_hit Math_sin DataX DataY DataZ Accx this Hx : get_x _ _ _ = _).
  rewrite (read_hit Math_sin DataX DataY DataZ Accy this Hy : get_y _ _ _ = _).
  rewrite (read_hit Math_sin DataX DataY DataZ Accz this Hz : get_z _ _ _ = _).
  reflexivity.
Qed.

Lemma uncached_0 (this : Pluto99HECC C) :
  cache_has "x" (cache this) = true ->
  cache_has "y" (cache this) = true ->
  cache_has "z" (cache this) = true ->
  uncached this = 0.
Proof.
  intros Hx Hy Hz. unfold uncached, stale. cbn [key].
  rewrite Hx, Hy, Hz. reflexivity.
Qed.

(** [rc] returns; it leaves the three axes cached with the values it
    returned and keeps the time reference and every cached entry. *)
Lemma rc_keeps (this : Pluto99HECC C) :
  exists x y z this',
    rc this = (Normal (mkRC x y z), this') /\
    private_jdate this' = private_jdate this /\
    calc_calls this' + uncached this' = calc_calls this + uncached this /\
    (forall k, cache_has k (cache this) = true ->
       cache_has k (cache this') = true /\
       cache_get k (cache this') = cache_get k (cache this)) /\
    (cache_has "x" (cache this') = true /\ cache_get "x" (cache this') = x) /\
    (cache_has "y" (cache this') = true /\ cache_get "y" (cache this') = y) /\
    (cache_has "z" (cache this') = true /\ cache_get "z" (cache this') = z).
Proof.
  destruct (read_keeps Math_sin DataX DataY DataZ Accx this)
    as (x & this1 & Hx & Hjd1 & Hp1 & _ & _ & Hk1 & Hhx & Hgx).
  destruct (read_keeps Math_sin DataX DataY DataZ Accy this1)
    as (y & this2 & Hy & Hjd2 & Hp2 & _ & _ & Hk2 & Hhy & Hgy).
  destruct (read_keeps Math_sin DataX DataY DataZ Accz this2)
    as (z & this3 & Hz & Hjd3 & Hp3 & _ & _ & Hk3 & Hhz & Hgz).
  cbn [read key] in *.
  exists x, y, z, this3. unfold get_rc, bind, ret. rewrite Hx, Hy, Hz.
  destruct (Hk2 "x" Hhx) as [Hhx2 Hgx2].
  destruct (Hk3 "x" Hhx2) as [Hhx3 Hgx3].
  destruct (Hk3 "y" Hhy) as [Hhy3 Hgy3].
  repeat split; try congruence; try lia.
  - apply Hk3, Hk2, Hk1. assumption.
  - destruct (Hk1 k) as [H1 G1]; [assumption|].
    destruct (Hk2 k H1) as [H2 G2]. destruct (Hk3 k H2) as [_ G3]. congruence.
Qed.

(** X4: [rc] enters the evaluator once for each axis that is not cached and
    for no other reason; after it, [rc] read again, at once or after any
    reads of the accessors, returns the same container, enters no evaluation
    and leaves the instance as it is. *)
Theorem rc_memoized (this : Pluto99HECC C) :
  exists c this',
    rc this = (Normal c, this') /\
    calc_calls this' = calc_calls this + uncached this /\
    forall l, let this'' := snd (rds l this') in
              rc this'' = (Normal c, this'') /\
              calc_calls this'' = calc_calls this'.
Proof.
  destruct (rc_keeps this)
    as (x & y & z & this' & Hrc & _ & Hp & _ & [Hhx Hgx] & [Hhy Hgy] & [Hhz Hgz]).
  pose proof (uncached_0 this' Hhx Hhy Hhz) as Hu.
  exists (mkRC x y z), this'. split; [exact Hrc|]. split; [lia|].
  intros l this''.
  destruct (reads_keep Math_sin DataX DataY DataZ l this') as (_ & _ & Hp' & Hk).
  fold this'' in Hp', Hk.
  destruct (Hk "x" Hhx) as [Hx' Gx]. destruct (Hk "y" Hhy) as [Hy' Gy].
  destruct (Hk "z" Hhz) as [Hz' Gz].
  split.
  - rewrite (rc_hit this'' Hx' Hy' Hz'). congruence.
  - pose proof (uncached_0 this'' Hx' Hy' Hz'). lia.
Qed.

(** *** The time reference over a sequence of calls *)

Lemma after_jdate c (this : Pluto99HECC C) :
  private_jdate (next c this) = epoch_after [c] (private_jdate this).
Proof.
  destruct c as [|serie|a| |jdr|]; cbn [after epoch_after].
  - destruct (private_X_keeps this) as (? & ? & -> & Hjd & _). exact Hjd.
  - destruct serie as [tables|v]; [|reflexivity].
    destruct (calc_keeps Math_sin tables this) as (? & ? & -> & Hjd & _). exact Hjd.
  - destruct (read_keeps Math_sin DataX DataY DataZ a this) as (? & ? & -> & Hjd & _).
    exact Hjd.
  - destruct (rc_keeps this) as (? & ? & ? & ? & -> & Hjd & _). exact Hjd.
  - destruct jdr; reflexivity.
  - reflexivity.
Qed.

Lemma epoch_after_cons c cs r :
  epoch_after (c :: cs) r = epoch_after cs (epoch_after [c] r).
Proof. destruct c as [| | | |[]|]; reflexivity. Qed.

Lemma run_jdate cs (this : Pluto99HECC C) :
  private_jdate (run cs this) = epoch_after cs (private_jdate this).
Proof.
  revert this. induction cs as [|c cs IH]; intros this; [reflexivity|].
  cbn [run_calls]. rewrite IH, after_jdate, <- epoch_after_cons. reflexivity.
Qed.

Lemma run_reachable cs (this : Pluto99HECC C) :
  can_reach this -> can_reach (run cs this).
Proof.
  revert this. induction cs as [|c cs IH]; intros this Hr; [exact Hr|].
  cbn [run_calls]. apply IH, reachable_call, Hr.
Qed.

(** X1: after any sequence of calls, failed ones included, the getter of
    [obTime] returns the argument of the last call of the setter that was
    given an instance of [JDateRepository], or the time reference the
    sequence started from when there is none; the getter changes nothing. *)
Theorem obTime_last_accepted (cs : list call) (this : Pluto99HECC C) :
  get_obTime (run cs this)
    = (Normal (epoch_after cs (private_jdate this)), run cs this).
Proof.
  unfold get_obTime, this_jdate. rewrite run_jdate. reflexivity.
Qed.

(** X2: what an accessor returns depends on the last accepted time
    reference only: after any sequence of calls on a reachable instance,
    [X], [x], [y] and [z] return the values of that epoch, whatever was read,
    evaluated or rejected before. *)
Theorem accessors_follow_epoch (cs : list call) (a : accessor)
    (this : Pluto99HECC C) :
  can_reach this ->
  fst (rd a (run cs this))
    = Normal (Some (value_of (epoch_after cs (private_jdate this)) a)).
Proof.
  intros Hr.
  pose proof (reachable_consistent Math_sin DataX DataY DataZ _
                (run_reachable cs this Hr)) as Hcons.
  destruct (read_consistent Math_sin DataX DataY DataZ a _ Hcons) as (? & -> & _).
  rewrite run_jdate. reflexivity.
Qed.

(** *** The calls that throw *)


(** *** What the evaluator leaves in place *)

(** X7: a call of the evaluator, on any argument, keeps the time reference
    and every cached entry and caches no axis: an axis that is cached is
    read after the call as before it.  The evaluator itself is not memoized:
    every call is an entry. *)
Theorem calc_keeps_memoized (serie : serie_arg) (a : accessor)
    (this : Pluto99HECC C) :
  let this' := snd (calc serie this) in
  private_jdate this' = private_jdate this /\
  calc_calls this' = S (calc_calls this) /\
  (a <> AccX -> cache_has (key a) (cache this') = cache_has (key a) (cache this)) /\
  (cache_has (key a) (cache this) = true -> fst (rd a this') = fst (rd a this)).
Proof.
  destruct serie as [tables|v]; cbn zeta.
  - destruct (calc_keeps Math_sin tables this) as (r & this' & -> & Hjd & Hn & Hf & Hk).
    cbn [snd]. repeat split; [exact Hjd|exact Hn| |].
    + intros Ha. apply Hf. destruct a; [congruence| | |]; discriminate.
    + intros Hc. destruct (Hk _ Hc) as [Hh Hg].
      rewrite (read_hit Math_sin DataX DataY DataZ a this' Hh).
      rewrite (read_hit Math_sin DataX DataY DataZ a this Hc).
      cbn [fst]. congruence.
  - rewrite calc_not_array. cbn [snd private_jdate cache calc_calls].
    repeat split. intros Hc.
    rewrite !(read_hit Math_sin DataX DataY DataZ a) by exact Hc. reflexivity.
Qed.

(** *** Tables shorter than three *)

(** X6: the evaluator does not require three degree tables.  On an empty
    Array it returns [0]; on one degree table it returns [S_0 * 1] and on two
    [S_0 * 1 + S_1 * X], as the same value: a missing degree is skipped, it
    does not make the result NaN. *)
Theorem calc_short_tables (this : Pluto99HECC C) (T0 T1 : list Term) :
  can_reach this ->
  let t := JDEC (private_jdate this) in
  let X := normalize (JDE (private_jdate this)) in
  let S_0 := partial_sum Math_sin t T0 in
  let S_1 := partial_sum Math_sin t T1 in
  fst (calc (SerieArray []) this) = Normal 0%float /\
  (exists v, fst (calc (SerieArray [T0]) this) = Normal v /\
             same_value_zero v (S_0 * 1)%float = true) /\
  (exists v, fst (calc (SerieArray [T0; T1]) this) = Normal v /\
             same_value_zero v (S_0 * 1 + S_1 * X)%float = true).
Proof.
  intros Hr t X S_0 S_1.
  apply (reachable_consistent Math_sin DataX DataY DataZ) in Hr.
  destruct (calc_consistent Math_sin DataX DataY DataZ [] this Hr) as (? & -> & _).
  destruct (calc_consistent Math_sin DataX DataY DataZ [T0] this Hr) as (? & -> & _).
  destruct (calc_consistent Math_sin DataX DataY DataZ [T0; T1] this Hr)
    as (? & -> & _).
  unfold series. cbn [fst serie_loop lookup list_lookup mjoin option_join to_number].
  rewrite !table_loop_partial_sum. fold t X S_0 S_1.
  split; [reflexivity|]. split; eexists; (split; [reflexivity|]).
  - apply same_value_zero_add_0_l.
  - apply same_value_zero_add_r, same_value_zero_add_0_l.
Qed.

(** *** The closed form of the axes *)

(** X8: with tables of three degree tables, the accessors return, bit for
    bit, the accumulated series plus the linear correction of the axis:
    [x = (0 + S_0 * 1 + S_1 * X + S_2 * (X * X)) + 9.922274 + 0.154154 * X]
    over the degree tables of [DataX], and likewise [y] and [z], whether the
    value is computed by the read or served from the cache. *)
Theorem axes_closed_form (this : Pluto99HECC C) (a : accessor)
    (T0 T1 T2 : list Term) :
  can_reach this ->
  table_of DataX DataY DataZ a = [T0; T1; T2] ->
  let t := JDEC (private_jdate this) in
  let X := normalize (JDE (private_jdate this)) in
  let S_0 := partial_sum Math_sin t T0 in
  let S_1 := partial_sum Math_sin t T1 in
  let S_2 := partial_sum Math_sin t T2 in
  let series_a := (0 + S_0 * 1 + S_1 * X + S_2 * (X * X))%float in
  fst (rd a this) =
    Normal (Some match a with
                 | AccX => X
                 | Accx => (series_a + 9.922274 + 0.154154 * X)%float
                 | Accy => (series_a + 10.016090 + 0.064073 * X)%float
                 | Accz => (series_a - 3.947474 - 0.042746 * X)%float
                 end).
Proof.
  intros Hr Htab t X S_0 S_1 S_2 series_a.
  apply (reachable_consistent Math_sin DataX DataY DataZ) in Hr.
  destruct (read_consistent Math_sin DataX DataY DataZ a this Hr) as (? & -> & _).
  cbn [fst]. unfold expected. rewrite Htab. unfold series.
  cbn [serie_loop lookup list_lookup mjoin option_join to_number].
  rewrite !table_loop_partial_sum. destruct a; reflexivity.
Qed.

(** *** A time reference that is not a number *)

Lemma sub_nan_r (x : float) : (x - nan)%float = nan.
Proof.
  apply Prim2SF_inj. rewrite sub_spec.
  change (Prim2SF nan) with S754_nan.
  destruct (Prim2SF x); reflexivity.
Qed.


(** *** A fresh epoch *)

Lemma uncached_3 (this : Pluto99HECC C) :
  (forall k, cache_has k (cache this) = false) -> uncached this = 3.
Proof.
  intros He. unfold uncached, stale. rewrite !He. reflexivity.
Qed.

(** X9: construction and an accepted call of the setter evaluate nothing and
    leave no axis cached; the first [rc] after either enters the evaluator
    exactly three times. *)
Theorem fresh_epoch_is_lazy (jdate jdr : value) (this0 this : Pluto99HECC C) :
  (constructor jdate = Normal this0 ->
     calc_calls this0 = 0 /\ uncached this0 = 3 /\
     calc_calls (snd (rc this0)) = 3) /\
  (instanceof_JDateRepository jdr = true ->
     let this' := snd (set_obTime jdr this) in
     calc_calls this' = calc_calls this /\ uncached this' = 3 /\
     calc_calls (snd (rc this')) = calc_calls this + 3).
Proof.
  split.
  - intros Hnew. apply constructor_returns in Hnew as (r & _ & ->).
    set (this0 := mkPluto r (cache_new r) 0).
    assert (uncached this0 = 3) as Hu
      by (apply uncached_3; intros k; apply cache_has_new).
    destruct (rc_memoized this0) as (c & this' & -> & Hn & _).
    cbn [snd]. rewrite Hn, Hu. repeat split.
  - intros Hi. destruct jdr; try discriminate Hi.
    rewrite set_obTime_jdate. cbn zeta. cbn [snd].
    set (this' := mkPluto r (cache_on r (cache this)) (calc_calls this)).
    assert (uncached this' = 3) as Hu
      by (apply uncached_3; intros k; apply cache_has_on).
    destruct (rc_memoized this') as (c & this'' & -> & Hn & _).
    cbn [snd]. rewrite Hn, Hu. repeat split.
Qed.

End Composition.

(** ** The further properties at work on the sample instance *)

Lemma obTime_last_accepted_witness :
  fst (get_obTime
         (run_calls sample_sin sample_data sample_data sample_data
            [CallSetObTime (VJDate epoch_J2000); CallRc;
             CallSetObTime plain_time_reference; CallCalc (SerieOther VNull)]
            sample_instance))
    = Normal epoch_J2000.
Proof.
  rewrite (obTime_last_accepted sample_sin sample_data sample_data sample_data).
  reflexivity.
Defined.

Lemma accessors_follow_epoch_witness :
  reachable sample_sin sample_data sample_data sample_data sample_instance /\
  fst (get_x sample_sin sample_data
         (run_calls sample_sin sample_data sample_data sample_data
            [CallGet Accx; CallSetObTime (VJDate epoch_J2000);
             CallSetObTime VNull]
            sample_instance))
    = Normal (Some (expected sample_sin sample_data sample_data sample_data
                      epoch_J2000 Accx)).
Proof.
  assert (reachable sample_sin sample_data sample_data sample_data sample_instance)
    as Hr by (apply (reachable_new _ _ _ _ (VJDate epoch_2446896)); reflexivity).
  split; [exact Hr|].
  apply (accessors_follow_epoch sample_sin sample_data sample_data sample_data
           [CallGet Accx; CallSetObTime (VJDate epoch_J2000); CallSetObTime VNull]
           Accx sample_instance Hr).
Defined.


Lemma rc_memoized_witness :
  exists c this',
    get_rc sample_sin sample_data sample_data sample_data sample_instance
      = (Normal c, this') /\
    calc_calls this' = 3 /\
    get_rc sample_sin sample_data sample_data sample_data this' = (Normal c, this').
Proof.
  destruct (rc_memoized sample_sin sample_data sample_data sample_data
              sample_instance) as (c & this' & Hrc & Hn & Hlater).
  exists c, this'. split; [exact Hrc|]. split; [exact Hn|].
  apply (Hlater []).
Defined.


Lemma calc_short_tables_witness :
  reachable sample_sin sample_data sample_data sample_data sample_instance /\
  fst (private_calc sample_sin (SerieArray []) sample_instance) = Normal 0%float.
Proof.
  assert (reachable sample_sin sample_data sample_data sample_data sample_instance)
    as Hr by (apply (reachable_new _ _ _ _ (VJDate epoch_2446896)); reflexivity).
  split; [exact Hr|].
  apply (calc_short_tables sample_sin sample_data sample_data sample_data
           sample_instance sample_T0 sample_T1 Hr).
Defined.

Lemma calc_keeps_memoized_witness :
  calc_calls
    (snd (private_calc sample_sin (SerieArray (sample_data ++ [[]]))
            sample_instance)) = 1 /\
  cache_has "x"
    (cache (snd (private_calc sample_sin (SerieArray (sample_data ++ [[]]))
                   sample_instance))) = false.
Proof.
  destruct (calc_keeps_memoized sample_sin sample_data sample_data sample_data
              (SerieArray (sample_data ++ [[]])) Accx sample_instance)
    as (_ & Hn & Hf & _).
  split; [exact Hn|].
  change "x" with (key Accx). rewrite Hf by discriminate. reflexivity.
Defined.

Lemma axes_closed_form_witness :
  reachable sample_sin sample_data sample_data sample_data sample_instance /\
  table_of sample_data sample_data sample_data Accy
    = [sample_T0; sample_T1; sample_T2] /\
  exists series_y,
    fst (get_y sample_sin sample_data sample_instance)
      = Normal (Some (series_y + 10.016090
                      + 0.064073 * normalize (JDE epoch_2446896))%float).
Proof.
  assert (reachable sample_sin sample_data sample_data sample_data sample_instance)
    as Hr by (apply (reachable_new _ _ _ _ (VJDate epoch_2446896)); reflexivity).
  split; [exact Hr|]. split; [reflexivity|]. eexists.
  apply (axes_closed_form sample_sin sample_data sample_data sample_data
           sample_instance Accy sample_T0 sample_T1 sample_T2 Hr eq_refl).
Defined.

Lemma fresh_epoch_is_lazy_witness :
  constructor (VJDate epoch_2446896) = Normal sample_instance /\
  calc_calls
    (snd (get_rc sample_sin sample_data sample_data sample_data sample_instance))
    = 3 /\
  instanceof_JDateRepository (VJDate epoch_J2000) = true /\
  uncached (snd (set_obTime (VJDate epoch_J2000) sample_instance)) = 3.
Proof.
  destruct (fresh_epoch_is_lazy sample_sin sample_data sample_data sample_data
              (VJDate epoch_2446896) (VJDate epoch_J2000)
              sample_instance sample_instance) as [Hnew Hset].
  split; [reflexivity|]. split; [apply (Hnew eq_refl)|].
  split; [reflexivity|]. apply (Hset eq_refl).
Defined.
